(** * Substack monitor: worker loop, start/stop control surface and status

    Shallow embedding of [app.py].  The external collaborators (the
    homepage fetch, the post page, the Gemini model and the Postmark
    client) are not modelled internally: each call site takes the
    collaborator's raw response as an input, and the Python helper that
    wraps it is translated line by line, including which exceptions it
    catches and which it lets through.  Logging is recorded at warning and
    error level only (the info lines carry no behaviour). *)

From Stdlib Require Import String Ascii Bool.
From stdpp Require Import base list.
Import ListNotations.
Open Scope string_scope.

(** ** Python values *)

(** The result of a Python call: it returns a value or raises. *)
Inductive py_result (A : Type) : Type :=
| Ret (a : A)
| Raise (exn : string).
Arguments Ret {A} a.
Arguments Raise {A} exn.

(** Truthiness of a value of Python type [str | None]. *)
Definition truthy (v : option string) : bool :=
  match v with
  | None => false
  | Some s => negb (String.eqb s "")
  end.

(** [str.strip()].  A character of a string is a code point below 256
    (an [ascii]); [is_space] is Python's [str.isspace] on those code
    points: 9-13, 28-32, 133 (NEL) and 160 (NBSP). *)
Definition is_space (c : ascii) : bool :=
  let n := nat_of_ascii c in
  (Nat.leb 9 n && Nat.leb n 13) || (Nat.leb 28 n && Nat.leb n 32)
  || Nat.eqb n 133 || Nat.eqb n 160.

Fixpoint drop_spaces (l : list ascii) : list ascii :=
  match l with
  | [] => []
  | c :: l' => if is_space c then drop_spaces l' else l
  end.

Definition strip (s : string) : string :=
  string_of_list_ascii
    (rev (drop_spaces (rev (drop_spaces (list_ascii_of_string s))))).

Definition newline : string := String (ascii_of_nat 10) EmptyString.

(** ** Observable events of one cycle *)

Inductive level := Warning | Error.

Inductive event :=
| EFetchHome                         (* requests.get(SUBSTACK_URL) *)
| EExtract (url : string)            (* extract_text_from_url(url) *)
| ESummarize (text : string)         (* summarize_text(text, ...) *)
| ESend (subject body : string)      (* send_simple_message(...) *)
| ESave (url : string)               (* save_last_processed_url(url) *)
| ELog (lvl : level)
| ESleep.                            (* time.sleep(SLEEP_SECONDS) *)

(** ** External collaborators: the raw responses *)

(** [requests.get(SUBSTACK_URL)] and the [sitemap-link] lookup. *)
Inductive home_resp :=
| HomeRequestError                (* get/raise_for_status raised RequestException *)
| HomeNoLink                      (* soup.find(...) returned None *)
| HomeLink (href : option string). (* the tag; None when it has no href *)

(** [requests.get(url)] and the [div.body] lookup. *)
Inductive page_resp :=
| PageRequestError                (* RequestException *)
| PageOtherError (exn : string)   (* any other exception, not caught there *)
| PageNoBody                      (* soup.find("div", class_="body") is None *)
| PageBody (paragraphs : list string). (* get_text() of each <p> *)

(** [model.generate_content(prompt)]. *)
Inductive model_resp :=
| ModelBlocked (reason : string)  (* prompt_feedback.block_reason set *)
| ModelText (text : string)       (* response.text *)
| ModelRaise.                     (* any exception, caught there *)

(** [postmark.emails.send(...)]. *)
Inductive send_resp :=
| SendOk (result : string)
| SendRaise.

Record cycle_env := mkEnv {
  env_home : home_resp;
  env_page : page_resp;
  env_model : model_resp;
  env_send : send_resp }.

(** ** The helpers of app.py *)

Definition get_latest_substack_post_url (r : home_resp)
  : py_result (option string) * list event :=
  match r with
  | HomeRequestError => (Ret None, [ELog Error])
  | HomeNoLink => (Ret None, [ELog Error])
  | HomeLink (Some href) => (Ret (Some href), [])
  | HomeLink None => (Raise "KeyError", [])   (* first_post_link['href'] *)
  end.

Definition extract_text_from_url (r : page_resp)
  : py_result (option string) * list event :=
  match r with
  | PageRequestError => (Ret None, [ELog Error])
  | PageOtherError exn => (Raise exn, [])
  | PageNoBody => (Ret None, [ELog Error])
  | PageBody ps => (Ret (Some (String.concat newline ps)), [])
  end.

Definition summarize_text (r : model_resp) : option string * list event :=
  match r with
  | ModelBlocked _ => (None, [ELog Error])
  | ModelText t => (Some (strip t), [])
  | ModelRaise => (None, [ELog Error])
  end.

Definition send_simple_message (r : send_resp) : option string * list event :=
  match r with
  | SendOk res => (Some res, [])
  | SendRaise => (None, [ELog Error])
  end.

Definition email_subject : string :=
  "Summary of the latest EAS503 Substack post".

Definition email_body (url summary : string) : string :=
  "Summary of " ++ url ++ ":" ++ newline ++ newline ++ summary.

(** ** One cycle of [worker_process]

    The body of the [while worker_active:] loop, from the [try:] to the
    [time.sleep] that ends every path.  [local] is the loop's variable
    [last_processed_url], [global] the module global [last_processed].
    The outcome labels the path taken with the spec's taxonomy; on the
    delivery path it records whether [send_simple_message] returned a
    result, which the code itself does not inspect. *)

Inductive outcome :=
| NoNewItem
| Delivered (url : string)
| SourceFetchFailed
| ExtractFailed
| SummarizeFailed
| SummarizeBlocked
| DeliveryFailed
| CycleError.   (* an exception reached [except Exception] of the loop *)

Record cycle_res := mkCycle {
  c_local : string;
  c_global : string;
  c_events : list event;
  c_outcome : outcome }.

Local Open Scope list_scope.

Definition blocked_signal (r : model_resp) : bool :=
  match r with ModelBlocked _ => true | _ => false end.

Definition worker_cycle (local global : string) (e : cycle_env) : cycle_res :=
  let '(r1, l1) := get_latest_substack_post_url (env_home e) in
  let ev1 := EFetchHome :: l1 in
  match r1 with
  | Raise _ => mkCycle local global (ev1 ++ [ELog Error; ESleep]) CycleError
  | Ret latest_post_url =>
    match latest_post_url with
    | None => mkCycle local global (ev1 ++ [ELog Warning; ESleep]) SourceFetchFailed
    | Some url =>
      if String.eqb url "" then
        mkCycle local global (ev1 ++ [ELog Warning; ESleep]) SourceFetchFailed
      else if negb (String.eqb url local) then
        let '(r2, l2) := extract_text_from_url (env_page e) in
        let ev2 := ev1 ++ EExtract url :: l2 in
        match r2 with
        | Raise _ => mkCycle local global (ev2 ++ [ELog Error; ESleep]) CycleError
        | Ret text =>
          match text with
          | Some t =>
            if String.eqb t "" then
              mkCycle local global (ev2 ++ [ELog Warning; ESleep]) ExtractFailed
            else
              let '(summary, l3) := summarize_text (env_model e) in
              let ev3 := ev2 ++ ESummarize t :: l3 in
              match summary with
              | Some sm =>
                if String.eqb sm "" then
                  mkCycle local global (ev3 ++ [ELog Warning; ESleep]) SummarizeFailed
                else
                  let '(sent, l4) := send_simple_message (env_send e) in
                  mkCycle url url
                    (ev3 ++ ESend email_subject (email_body url sm) :: l4
                         ++ [ESave url; ESleep])
                    (match sent with Some _ => Delivered url | None => DeliveryFailed end)
              | None =>
                mkCycle local global (ev3 ++ [ELog Warning; ESleep])
                  (if blocked_signal (env_model e) then SummarizeBlocked else SummarizeFailed)
              end
          | None => mkCycle local global (ev2 ++ [ELog Warning; ESleep]) ExtractFailed
          end
        end
      else mkCycle local global (ev1 ++ [ESleep]) NoNewItem
    end
  end.

(** ** Process state *)

(** Where a worker thread is in [worker_process]:
    [TInit] before [last_processed_url = get_last_processed_url()],
    [TTop] at the [while worker_active:] test, [TBusy] inside the loop
    body, [TSleep] in the [time.sleep] that ends the body, [TExit] after
    the loop. *)
Inductive tpc := TInit | TTop | TBusy | TSleep | TExit.

Record wthread := mkThread {
  local_url : string;    (* last_processed_url *)
  tpc_of : tpc }.

Record mstate := mkState {
  worker_active : bool;
  worker_thread : option nat;   (* index of the thread object in [threads] *)
  ping_active : bool;
  last_processed : string;
  threads : list wthread;       (* every worker thread ever started *)
  events : list (nat * event) }.

Definition set_worker_active (b : bool) (s : mstate) : mstate :=
  mkState b (worker_thread s) (ping_active s) (last_processed s) (threads s) (events s).

(** The initial module state: [last_processed = ""], flags false. *)
Definition module_init : mstate := mkState false None false "" [] [].

(** [worker_thread = threading.Thread(target=worker_process); ...start()]
    together with the preceding [worker_active = True]. *)
Definition spawn_worker (s : mstate) : mstate :=
  mkState true (Some (length (threads s))) (ping_active s) (last_processed s)
    (threads s ++ [mkThread "" TInit]) (events s).

(** ** The control surface *)

(** [start_worker] tests the flag, then sets it; the two halves are kept
    apart so that concurrent requests can interleave between them. *)
Definition start_check (s : mstate) : bool := negb (worker_active s).

Definition start_commit (saw_inactive : bool) (s : mstate) : mstate * string :=
  if saw_inactive then (spawn_worker s, "worker started")
  else (s, "worker already running").

Definition start_worker (s : mstate) : mstate * string :=
  start_commit (start_check s) s.

Definition stop_worker (s : mstate) : mstate * string :=
  if worker_active s then
    (set_worker_active false s, "worker stopping - will finish current cycle")
  else (s, "worker not running").

Definition on_startup (s : mstate) : mstate :=
  let s1 := spawn_worker s in
  mkState (worker_active s1) (worker_thread s1) true (last_processed s1)
    (threads s1) (events s1).

Definition on_shutdown (s : mstate) : mstate :=
  mkState false (worker_thread s) false (last_processed s) (threads s) (events s).

Record status := mkStatus {
  st_status : string;
  st_worker_active : bool;
  st_ping_active : bool;
  st_last_processed : string }.

(** [x or "None"] for [x] of Python type [str | None]. *)
Definition or_none (v : option string) : string :=
  match v with
  | Some s => if String.eqb s "" then "None" else s
  | None => "None"
  end.

Definition index (s : mstate) : status :=
  mkStatus "running" (worker_active s) (ping_active s) (or_none (Some (last_processed s))).

(** ** Worker threads *)

Definition set_thread (i : nat) (t : wthread) (s : mstate) : mstate :=
  mkState (worker_active s) (worker_thread s) (ping_active s) (last_processed s)
    (<[i := t]> (threads s)) (events s).

(** One step of thread [i] of [worker_process]; [e] supplies the
    collaborators' responses when the step runs a loop body. *)
Definition worker_step (i : nat) (e : cycle_env) (s : mstate) : mstate :=
  match threads s !! i with
  | None => s
  | Some t =>
    match tpc_of t with
    | TInit => set_thread i (mkThread (last_processed s) TTop) s
    | TTop =>
      set_thread i (mkThread (local_url t) (if worker_active s then TBusy else TExit)) s
    | TBusy =>
      let r := worker_cycle (local_url t) (last_processed s) e in
      mkState (worker_active s) (worker_thread s) (ping_active s) (c_global r)
        (<[i := mkThread (c_local r) TSleep]> (threads s))
        (events s ++ map (pair i) (c_events r))
    | TSleep => set_thread i (mkThread (local_url t) TTop) s
    | TExit => s
    end
  end.

(** ** The whole process: module state plus in-flight HTTP handlers

    FastAPI runs the synchronous route functions on a thread pool, so
    several [start_worker] calls can be in flight at once. *)

Inductive handler :=
| HStart
| HStartChecked (saw_inactive : bool)
| HStop
| HReplied (resp : string).

Record sys := mkSys {
  sys_st : mstate;
  sys_handlers : list handler }.

Inductive action :=
| AStartup
| AShutdown
| ARequestStart            (* a POST /start arrives *)
| ARequestStop             (* a POST /stop arrives *)
| AHandler (h : nat)       (* handler [h] runs its next step *)
| AWorker (i : nat) (e : cycle_env).  (* worker thread [i] runs its next step *)

Definition handler_step (h : nat) (x : sys) : sys :=
  let s := sys_st x in
  let hs := sys_handlers x in
  match hs !! h with
  | Some HStart => mkSys s (<[h := HStartChecked (start_check s)]> hs)
  | Some (HStartChecked b) =>
    let '(s', r) := start_commit b s in mkSys s' (<[h := HReplied r]> hs)
  | Some HStop =>
    let '(s', r) := stop_worker s in mkSys s' (<[h := HReplied r]> hs)
  | _ => x
  end.

Definition step_sys (x : sys) (a : action) : sys :=
  match a with
  | AStartup => mkSys (on_startup (sys_st x)) (sys_handlers x)
  | AShutdown => mkSys (on_shutdown (sys_st x)) (sys_handlers x)
  | ARequestStart => mkSys (sys_st x) (sys_handlers x ++ [HStart])
  | ARequestStop => mkSys (sys_st x) (sys_handlers x ++ [HStop])
  | AHandler h => handler_step h x
  | AWorker i e => mkSys (worker_step i e (sys_st x)) (sys_handlers x)
  end.

Definition run (x : sys) (tr : list action) : sys := fold_left step_sys tr x.

Definition sys_init : sys := mkSys module_init [].

(** Sequential HTTP calls: each request runs to completion. *)
Inductive op := OpStart | OpStop.

Definition apply_op (s : mstate) (o : op) : mstate :=
  match o with
  | OpStart => fst (start_worker s)
  | OpStop => fst (stop_worker s)
  end.

(** The spec's MonitorState machine: Idle is [false], Running [true]. *)
Definition monitor_step (running : bool) (o : op) : bool :=
  match o with
  | OpStart => true
  | OpStop => false
  end.

(** ** Concrete scenarios *)

Definition env_ok (url : string) : cycle_env :=
  mkEnv (HomeLink (Some url)) (PageBody ["Some text."]) (ModelText " <p>sum</p> ")
    (SendOk "sent").

Example scenario_delivered :
  worker_cycle "" "" (env_ok "post-1") =
  mkCycle "post-1" "post-1"
    [EFetchHome; EExtract "post-1"; ESummarize "Some text.";
     ESend email_subject (email_body "post-1" "<p>sum</p>"); ESave "post-1"; ESleep]
    (Delivered "post-1").
Proof. reflexivity. Qed.

Example scenario_no_new :
  c_outcome (worker_cycle "post-1" "post-1" (env_ok "post-1")) = NoNewItem.
Proof. reflexivity. Qed.

(** ** Proof tools *)

Ltac split_cycle :=
  unfold worker_cycle, get_latest_substack_post_url, extract_text_from_url,
    summarize_text, send_simple_message; simpl;
  repeat (match goal with
          | |- context [match ?x with _ => _ end] => destruct x eqn:?
          | |- context [if ?b then _ else _] => destruct b eqn:?
          end; simpl in * ).

Definition is_send (ev : event) : bool :=
  match ev with ESend _ _ => true | _ => false end.

(** Every path through the cycle that does not reach the [send] keeps both
    copies of the marker. *)
Lemma worker_cycle_frame local global e :
  let r := worker_cycle local global e in
  (c_global r = global /\ c_local r = local /\ forallb (fun ev => negb (is_send ev)) (c_events r) = true)
  \/ (exists url, c_global r = url /\ c_local r = url /\ In (ESave url) (c_events r)
        /\ (c_outcome r = Delivered url \/ c_outcome r = DeliveryFailed)).
Proof.
  destruct e as [[| |[href|]] [| | |ps] [|t|] [res|]]; simpl; split_cycle; auto;
    right; eexists; (split; [reflexivity|]); (split; [reflexivity|]);
    rewrite ?in_app_iff; simpl; auto 10.
Qed.

Ltac clean_eqb :=
  repeat match goal with
         | H : negb _ = true |- _ => apply negb_true_iff in H
         | H : negb _ = false |- _ => apply negb_false_iff in H
         | H : String.eqb _ _ = false |- _ => apply String.eqb_neq in H
         | H : String.eqb _ _ = true |- _ => apply String.eqb_eq in H
         end.

Definition saves_of (evs : list event) : list string :=
  flat_map (fun ev => match ev with ESave u => [u] | _ => [] end) evs.

(** Where a cycle writes the marker: either nowhere (both copies kept, no
    save, no call to send_simple_message), or on the send path for the
    fetched locator [url], whatever the send returns. *)
Lemma cycle_write_path local global e :
  let r := worker_cycle local global e in
  (c_local r = local /\ c_global r = global /\ saves_of (c_events r) = []
   /\ length (filter is_send (c_events r)) = 0)
  \/ (exists url sm, env_home e = HomeLink (Some url) /\ url <> "" /\ url <> local
        /\ c_local r = url /\ c_global r = url /\ saves_of (c_events r) = [url]
        /\ In (ESend email_subject (email_body url sm)) (c_events r)
        /\ length (filter is_send (c_events r)) = 1
        /\ (c_outcome r = Delivered url \/ c_outcome r = DeliveryFailed)).
Proof.
  destruct e as [[| |[href|]] [| | |ps] [reason|txt|] [res|]]; simpl;
    split_cycle; clean_eqb; try (left; auto; fail);
    right; do 2 eexists; (split; [reflexivity|]); repeat (split; [eauto|]);
    rewrite ?in_app_iff; simpl; auto 10.
Qed.

(** The cycle reads last_processed nowhere: its events, its outcome and
    the loop's new copy depend only on the copy; a fetched non-empty
    locator equal to the copy is NoNewItem and any other one has its
    page fetched, whatever last_processed holds. *)
Lemma cycle_uses_copy local global global' e :
  (c_events (worker_cycle local global e) = c_events (worker_cycle local global' e)
   /\ c_outcome (worker_cycle local global e) = c_outcome (worker_cycle local global' e)
   /\ c_local (worker_cycle local global e) = c_local (worker_cycle local global' e))
  /\ (forall url, env_home e = HomeLink (Some url) -> url <> "" ->
        (url = local -> c_outcome (worker_cycle local global e) = NoNewItem)
        /\ (url <> local -> In (EExtract url) (c_events (worker_cycle local global e)))).
Proof.
  split.
  - destruct e as [[| |[href|]] [| | |ps] [reason|txt|] [res|]]; simpl;
      split_cycle; auto.
  - intros url Hh Hu. destruct e as [h p m sd]; simpl in Hh; subst h.
    unfold worker_cycle; simpl. rewrite (proj2 (String.eqb_neq url "") Hu). simpl.
    split.
    + intros ->. rewrite String.eqb_refl. reflexivity.
    + intros Hl. rewrite (proj2 (String.eqb_neq url local) Hl). simpl.
      split_cycle; rewrite ?in_app_iff; simpl; tauto.
Qed.

Definition is_log (ev : event) : bool :=
  match ev with ELog _ => true | _ => false end.

Lemma thread_lookup_insert (l : list wthread) i t t' :
  l !! i = Some t -> <[i := t']> l !! i = Some t'.
Proof.
  intros H. apply list_lookup_insert_eq. apply lookup_lt_is_Some_1. eauto.
Qed.

(** What one step of thread [i] does to thread [i] itself. *)
Lemma worker_step_self s i e t :
  threads s !! i = Some t ->
  threads (worker_step i e s) !! i =
  Some (match tpc_of t with
        | TInit => mkThread (last_processed s) TTop
        | TTop => mkThread (local_url t) (if worker_active s then TBusy else TExit)
        | TBusy => mkThread (c_local (worker_cycle (local_url t) (last_processed s) e)) TSleep
        | TSleep => mkThread (local_url t) TTop
        | TExit => t
        end).
Proof.
  intros H. unfold worker_step. rewrite H.
  destruct (tpc_of t); simpl; eauto using thread_lookup_insert.
Qed.

(** * Claims *)

(** The failing input of C1: the post is new, extraction and
    summarization succeed, and the Postmark call raises. *)
Definition env_send_fails : cycle_env :=
  mkEnv (HomeLink (Some "post-2")) (PageBody ["Body"]) (ModelText "sum") SendRaise.

(** C1 (code_bug): a cycle whose delivery fails (send_simple_message
    catches the exception and returns None) still overwrites the marker
    with the new locator, because worker_process ignores the result of
    send_simple_message and calls save_last_processed_url unconditionally. *)
Theorem delivery_failure_moves_marker :
  let r := worker_cycle "post-1" "post-1" env_send_fails in
  c_outcome r = DeliveryFailed /\ c_global r = "post-2" /\ c_local r = "post-2"
  /\ In (ESave "post-2") (c_events r).
Proof. vm_compute. intuition auto 20. Qed.

(** C3: in a cycle where summarize_text is called and the model reports a
    block reason, the outcome is SummarizeBlocked, no email is sent, and
    neither the global marker nor the loop's copy changes. *)
Theorem summarize_blocked_keeps_marker local global e t :
  In (ESummarize t) (c_events (worker_cycle local global e)) ->
  blocked_signal (env_model e) = true ->
  let r := worker_cycle local global e in
  c_outcome r = SummarizeBlocked
  /\ forallb (fun ev => negb (is_send ev)) (c_events r) = true
  /\ c_global r = global /\ c_local r = local.
Proof.
  intros HIn Hb.
  destruct e as [[| |[href|]] [| | |ps] [reason|txt|] [res|]]; simpl in Hb;
    try discriminate; revert HIn; simpl; split_cycle; intros HIn;
    rewrite ?in_app_iff in HIn; simpl in HIn; intuition discriminate.
Qed.

Lemma summarize_blocked_keeps_marker_witness :
  In (ESummarize "Body")
     (c_events (worker_cycle "post-1" "post-1"
        (mkEnv (HomeLink (Some "post-2")) (PageBody ["Body"]) (ModelBlocked "SAFETY") SendRaise)))
  /\ c_outcome (worker_cycle "post-1" "post-1"
        (mkEnv (HomeLink (Some "post-2")) (PageBody ["Body"]) (ModelBlocked "SAFETY") SendRaise))
     = SummarizeBlocked.
Proof.
  split.
  - vm_compute. intuition auto 10.
  - apply (summarize_blocked_keeps_marker "post-1" "post-1"
             (mkEnv (HomeLink (Some "post-2")) (PageBody ["Body"]) (ModelBlocked "SAFETY") SendRaise)
             "Body").
    + vm_compute. intuition auto 10.
    + reflexivity.
Defined.

(** C7: whatever the collaborators do, including raising, a cycle returns
    an outcome and ends in the inter-cycle sleep; every outcome other than
    NoNewItem and Delivered logs a warning or an error; a thread in the
    loop body always reaches the sleep, and a thread only leaves the loop
    at the [while worker_active] test with the flag cleared. *)
Theorem cycle_never_throws :
  (forall local global e,
     let r := worker_cycle local global e in
     last (c_events r) = Some ESleep
     /\ match c_outcome r with
        | NoNewItem | Delivered _ => True
        | _ => existsb is_log (c_events r) = true
        end)
  /\ (forall s i e t, threads s !! i = Some t -> tpc_of t = TBusy ->
        exists l, threads (worker_step i e s) !! i = Some (mkThread l TSleep))
  /\ (forall s i e t t', threads s !! i = Some t ->
        threads (worker_step i e s) !! i = Some t' -> tpc_of t' = TExit ->
        tpc_of t = TExit \/ (tpc_of t = TTop /\ worker_active s = false)).
Proof.
  split; [|split].
  - intros local global e.
    destruct e as [[| |[href|]] [| | |ps] [reason|txt|] [res|]]; simpl;
      split_cycle; rewrite ?existsb_app; simpl;
      rewrite ?orb_true_r; auto.
  - intros s i e t Hi Hb. rewrite (worker_step_self s i e t Hi), Hb. eauto.
  - intros s i e t t' Hi Hi' Hx. rewrite (worker_step_self s i e t Hi) in Hi'.
    injection Hi' as <-.
    destruct (tpc_of t) eqn:Ht; simpl in Hx; try discriminate; auto.
    destruct (worker_active s); simpl in Hx; try discriminate; auto.
Qed.

(** C4: start_worker while the flag is set returns "worker already
    running" and leaves the state as it was (no thread started);
    stop_worker while it is clear returns "worker not running" and leaves
    the state as it was; and after any sequence of sequential start/stop
    calls the flag is the fold of the MonitorState machine over the
    sequence. *)
Theorem start_stop_idempotent :
  (forall s, worker_active s = true -> start_worker s = (s, "worker already running"))
  /\ (forall s, worker_active s = false -> stop_worker s = (s, "worker not running"))
  /\ (forall ops s,
        worker_active (fold_left apply_op ops s) = fold_left monitor_step ops (worker_active s)).
Proof.
  split; [|split].
  - intros s H. unfold start_worker, start_check. rewrite H. reflexivity.
  - intros s H. unfold stop_worker. rewrite H. reflexivity.
  - induction ops as [|o ops IH]; intros s; simpl; [reflexivity|].
    rewrite IH. f_equal.
    destruct o; simpl.
    + unfold start_worker, start_check, start_commit.
      destruct (worker_active s) eqn:Ha; simpl; [exact Ha | reflexivity].
    + unfold stop_worker. destruct (worker_active s) eqn:Ha; simpl; [reflexivity | exact Ha].
Qed.

Lemma start_stop_idempotent_witness :
  start_worker (on_startup module_init) = (on_startup module_init, "worker already running")
  /\ stop_worker module_init = (module_init, "worker not running").
Proof.
  split.
  - apply (proj1 start_stop_idempotent). reflexivity.
  - apply (proj1 (proj2 start_stop_idempotent)). reflexivity.
Defined.

(** C9: GET / renders the marker with [last_processed or "None"]: a None
    marker and an empty marker both give the literal "None", and every
    non-empty marker is reported as it is. *)
Theorem index_marker_rendering :
  or_none None = "None" /\ or_none (Some "") = "None"
  /\ (forall m, m <> "" -> or_none (Some m) = m)
  /\ (forall s, st_last_processed (index s) =
                if String.eqb (last_processed s) "" then "None" else last_processed s).
Proof.
  split; [reflexivity|]. split; [reflexivity|]. split.
  - intros m Hm. simpl. destruct (String.eqb_spec m ""); [contradiction | reflexivity].
  - intros s. reflexivity.
Qed.

Lemma index_marker_rendering_witness :
  or_none (Some "post-1") = "post-1"
  /\ st_last_processed (index module_init) = "None".
Proof.
  split.
  - apply (proj1 (proj2 (proj2 index_marker_rendering))). discriminate.
  - rewrite (proj2 (proj2 (proj2 index_marker_rendering))). reflexivity.
Defined.

(** C10: the start and stop handlers, whole or split at the check, never
    touch last_processed (nor ping_active nor the worker loops' progress):
    they change only worker_active and worker_thread, and start adds the
    new thread object. *)
Theorem handlers_keep_marker :
  (forall s b, let s' := fst (start_commit b s) in
     last_processed s' = last_processed s /\ ping_active s' = ping_active s
     /\ events s' = events s
     /\ (threads s' = threads s \/ threads s' = threads s ++ [mkThread "" TInit]))
  /\ (forall s, let s' := fst (start_worker s) in last_processed s' = last_processed s)
  /\ (forall s, let s' := fst (stop_worker s) in
        last_processed s' = last_processed s /\ ping_active s' = ping_active s
        /\ events s' = events s /\ threads s' = threads s
        /\ worker_thread s' = worker_thread s)
  /\ (forall x h, last_processed (sys_st (handler_step h x)) = last_processed (sys_st x)).
Proof.
  assert (Hc : forall s b, last_processed (fst (start_commit b s)) = last_processed s)
    by (intros s []; reflexivity).
  assert (Hs : forall s, last_processed (fst (stop_worker s)) = last_processed s)
    by (intros s; unfold stop_worker; destruct (worker_active s); reflexivity).
  split; [|split; [|split]].
  - intros s []; simpl; auto 10.
  - intros s. apply Hc.
  - intros s. unfold stop_worker. destruct (worker_active s); simpl; auto 10.
  - intros [s hs] h. unfold handler_step; simpl.
    destruct (hs !! h) as [[| b | | r]|]; simpl; auto.
    + specialize (Hc s b). destruct (start_commit b s). exact Hc.
    + specialize (Hs s). destruct (stop_worker s). exact Hs.
Qed.

(** ** The loop's copy of the marker

    [synced s]: every worker thread past its first line holds in
    [last_processed_url] the current value of [last_processed]. *)
Definition synced (s : mstate) : Prop :=
  forall i t, threads s !! i = Some t -> tpc_of t <> TInit -> local_url t = last_processed s.

Lemma synced_set_thread s i t' :
  synced s -> (tpc_of t' <> TInit -> local_url t' = last_processed s) ->
  synced (set_thread i t' s).
Proof.
  intros Hs Ht j t Hj Hn. simpl in *.
  apply list_lookup_insert_Some in Hj as [(-> & <- & _)|(_ & Hj)]; eauto.
Qed.

Lemma synced_spawn s : synced s -> synced (spawn_worker s).
Proof.
  intros Hs j t Hj Hn. simpl in *.
  apply lookup_snoc_Some in Hj as [[_ Hj]|[_ <-]]; [eauto | simpl in Hn; congruence].
Qed.

Lemma synced_flag s b : synced s -> synced (set_worker_active b s).
Proof. intros Hs j t Hj. apply (Hs j t Hj). Qed.

Lemma stop_worker_cases s :
  fst (stop_worker s) = set_worker_active false s \/ fst (stop_worker s) = s.
Proof. unfold stop_worker. destruct (worker_active s); auto. Qed.

Lemma start_commit_cases b s :
  fst (start_commit b s) = spawn_worker s \/ fst (start_commit b s) = s.
Proof. destruct b; auto. Qed.

Lemma worker_step_synced i e s :
  length (threads s) <= 1 -> synced s -> synced (worker_step i e s).
Proof.
  intros Hlen Hs. unfold worker_step.
  destruct (threads s !! i) as [t|] eqn:Hi; [|exact Hs].
  destruct (tpc_of t) eqn:Hp.
  - apply synced_set_thread; auto.
  - apply synced_set_thread; auto. intros _. apply (Hs i t Hi). congruence.
  - intros j t' Hj Hn. simpl in *.
    apply list_lookup_insert_Some in Hj as [(<- & <- & _)|(Hne & Hj)].
    + simpl. pose proof (Hs i t Hi ltac:(congruence)) as Heq.
      destruct (worker_cycle_frame (local_url t) (last_processed s) e)
        as [(-> & -> & _)|(url & -> & -> & _)]; auto.
    + exfalso. apply lookup_lt_Some in Hi, Hj. lia.
  - apply synced_set_thread; auto. intros _. apply (Hs i t Hi). congruence.
  - exact Hs.
Qed.

Lemma step_threads_grow x a :
  length (threads (sys_st x)) <= length (threads (sys_st (step_sys x a))).
Proof.
  destruct x as [s hs], a as [| | | |h|i e]; simpl.
  - rewrite length_app. simpl. lia.
  - lia.
  - lia.
  - lia.
  - unfold handler_step; simpl. destruct (hs !! h) as [[|b| |r]|]; simpl; try lia.
    + destruct (start_commit_cases b s) as [Hc|Hc];
        destruct (start_commit b s) as [s' r]; simpl in *; subst; simpl;
        rewrite ?length_app; simpl; lia.
    + destruct (stop_worker_cases s) as [Hc|Hc];
        destruct (stop_worker s) as [s' r]; simpl in *; subst; simpl; lia.
  - unfold worker_step. destruct (threads s !! i) as [t|]; [|lia].
    destruct (tpc_of t); simpl; rewrite ?length_insert; lia.
Qed.

Lemma step_synced x a :
  length (threads (sys_st (step_sys x a))) <= 1 -> synced (sys_st x) ->
  synced (sys_st (step_sys x a)).
Proof.
  intros Hlen Hs. pose proof (step_threads_grow x a) as Hg.
  destruct x as [s hs], a as [| | | |h|i e]; simpl in *.
  - apply synced_spawn in Hs. exact Hs.
  - exact Hs.
  - exact Hs.
  - exact Hs.
  - unfold handler_step in *; simpl in *. destruct (hs !! h) as [[|b| |r]|]; simpl; auto.
    + destruct (start_commit_cases b s) as [Hc|Hc];
        destruct (start_commit b s) as [s' r]; simpl in *; subst; auto using synced_spawn.
    + destruct (stop_worker_cases s) as [Hc|Hc];
        destruct (stop_worker s) as [s' r]; simpl in *; subst; auto using synced_flag.
  - apply worker_step_synced; [lia | exact Hs].
Qed.

(** While at most one worker thread has ever been started, its copy of
    the marker is the marker. *)
Lemma single_loop_synced tr :
  length (threads (sys_st (run sys_init tr))) <= 1 -> synced (sys_st (run sys_init tr)).
Proof.
  assert (Hgen : forall x, (length (threads (sys_st x)) <= 1 -> synced (sys_st x)) ->
            length (threads (sys_st (run x tr))) <= 1 -> synced (sys_st (run x tr))).
  { induction tr as [|a tr IH]; intros x Hx; simpl; [exact Hx|].
    apply IH. intros Hlen. apply step_synced; [exact Hlen|].
    apply Hx. pose proof (step_threads_grow x a). lia. }
  apply (Hgen sys_init). intros _. unfold synced. intros i t Hi. simpl in Hi. rewrite lookup_nil in Hi. discriminate.
Qed.

(** ** Concrete executions *)

Definition env_no_link : cycle_env := mkEnv HomeNoLink PageNoBody ModelRaise SendRaise.

(** Startup; loop 0 runs a cycle (the homepage has no link) and sleeps;
    POST /stop arrives, then POST /start; loop 1 starts, reads the marker
    "" and delivers "post-1"; loop 0 wakes, finds the flag set again and
    enters another cycle with its copy "" of the marker. *)
Definition tr_stop_start_prefix : list action :=
  [AStartup; AWorker 0 env_no_link; AWorker 0 env_no_link; AWorker 0 env_no_link;
   ARequestStop; AHandler 0].

Definition tr_stop_start : list action :=
  tr_stop_start_prefix ++
  [ARequestStart; AHandler 1; AHandler 1;
   AWorker 1 env_no_link; AWorker 1 env_no_link; AWorker 1 (env_ok "post-1");
   AWorker 0 env_no_link; AWorker 0 env_no_link].

(** After a stop that let loop 0 exit, two POST /start requests run
    their flag tests before either sets the flag. *)
Definition tr_race : list action :=
  [AStartup; ARequestStop; AHandler 0; AWorker 0 env_no_link; AWorker 0 env_no_link;
   ARequestStart; ARequestStart; AHandler 1; AHandler 2; AHandler 1; AHandler 2;
   AWorker 1 env_no_link; AWorker 1 env_no_link; AWorker 2 env_no_link; AWorker 2 env_no_link].

(** One loop only: it delivers "post-1", sleeps, and enters its next
    cycle. *)
Definition tr_one_loop : list action :=
  [AStartup; AWorker 0 env_no_link; AWorker 0 env_no_link; AWorker 0 (env_ok "post-1");
   AWorker 0 env_no_link; AWorker 0 env_no_link].

(** C2 (as amended): a cycle whose fetched, non-empty locator equals the
    loop's own copy of the marker only fetches the homepage and sleeps:
    outcome NoNewItem, no extraction, summarization or email, and neither
    copy of the marker changes.  The loop reads its copy from
    last_processed when it starts; a cycle changes the copy only when it
    reaches send_simple_message, whether or not the send succeeds, and
    then sets it to the fetched locator.  The copy equals last_processed
    in every run where at most one worker thread has been started. *)
Theorem no_new_item_against_loop_copy :
  (forall local global e url,
     env_home e = HomeLink (Some url) -> url <> "" -> url = local ->
     worker_cycle local global e = mkCycle local global [EFetchHome; ESleep] NoNewItem)
  /\ (forall s i e t, threads s !! i = Some t -> tpc_of t = TInit ->
        threads (worker_step i e s) !! i = Some (mkThread (last_processed s) TTop))
  /\ (forall local global e,
        let r := worker_cycle local global e in
        c_local r = local
        \/ (exists url sm, env_home e = HomeLink (Some url) /\ c_local r = url
              /\ In (ESend email_subject (email_body url sm)) (c_events r)
              /\ (c_outcome r = Delivered url \/ c_outcome r = DeliveryFailed)))
  /\ (forall tr, length (threads (sys_st (run sys_init tr))) <= 1 ->
        synced (sys_st (run sys_init tr))).
Proof.
  split; [|split; [|split]].
  - intros local global e url Hh Hne ->. unfold worker_cycle. rewrite Hh. simpl.
    destruct (String.eqb_spec local "") as [|_]; [contradiction|].
    rewrite String.eqb_refl. reflexivity.
  - intros s i e t Hi Hp. rewrite (worker_step_self s i e t Hi), Hp. reflexivity.
  - intros local global e.
    destruct (cycle_write_path local global e)
      as [(Hl & _)|(url & sm & Hh & _ & _ & Hl & _ & _ & Hin & _ & Ho)]; [left; exact Hl|].
    right. exists url, sm. auto.
  - exact single_loop_synced.
Qed.

Lemma no_new_item_against_loop_copy_witness :
  worker_cycle "post-1" "post-1" (env_ok "post-1")
    = mkCycle "post-1" "post-1" [EFetchHome; ESleep] NoNewItem
  /\ threads (worker_step 0 env_no_link (on_startup module_init)) !! 0
     = Some (mkThread "" TTop)
  /\ synced (sys_st (run sys_init tr_one_loop)).
Proof.
  split; [|split].
  - apply (proj1 no_new_item_against_loop_copy "post-1" "post-1" (env_ok "post-1") "post-1");
      [reflexivity | discriminate | reflexivity].
  - apply (proj1 (proj2 no_new_item_against_loop_copy) (on_startup module_init) 0 env_no_link
             (mkThread "" TInit)); reflexivity.
  - apply (proj2 (proj2 (proj2 no_new_item_against_loop_copy))). vm_compute. lia.
Defined.

(** C2 as stated fails: after POST /stop and POST /start, the old loop
    holds the copy "" while last_processed is "post-1"; a fetch that
    returns "post-1" makes it extract, summarize and email that post again
    and end as Delivered, not NoNewItem. *)
Lemma fetch_equal_to_marker_redelivers :
  let x := run sys_init tr_stop_start in
  let x' := step_sys x (AWorker 0 (env_ok "post-1")) in
  last_processed (sys_st x) = "post-1"
  /\ threads (sys_st x) !! 0 = Some (mkThread "" TBusy)
  /\ drop (length (events (sys_st x))) (events (sys_st x'))
     = map (pair 0) [EFetchHome; EExtract "post-1"; ESummarize "Some text.";
                     ESend email_subject (email_body "post-1" "<p>sum</p>");
                     ESave "post-1"; ESleep]
  /\ c_outcome (worker_cycle "" "post-1" (env_ok "post-1")) = Delivered "post-1".
Proof. vm_compute. repeat split. Qed.

(** C5 as stated fails: two POST /start requests whose flag tests both
    run before either sets worker_active both answer "worker started",
    and two worker loops end up inside their loop bodies. *)
Lemma racing_starts_spawn_two_loops :
  let x := run sys_init tr_race in
  drop 1 (sys_handlers x) = [HReplied "worker started"; HReplied "worker started"]
  /\ map tpc_of (threads (sys_st x)) = [TExit; TBusy; TBusy].
Proof. vm_compute. split; reflexivity. Qed.

(** C5 (as amended): a start_worker that runs after another has set
    the flag answers "worker already running" and starts nothing, so
    serialized calls start at most one loop; but the test and the set are
    not atomic, and two calls that both test the clear flag before either
    sets it each start a loop and both answer "worker started". *)
Theorem start_check_then_set :
  (forall s, let s1 := fst (start_worker s) in
     start_worker s1 = (s1, "worker already running")
     /\ length (threads s1) <= S (length (threads s)))
  /\ (forall s, worker_active s = false ->
       let x := run (mkSys s [HStart; HStart]) [AHandler 0; AHandler 1; AHandler 0; AHandler 1] in
       length (threads (sys_st x)) = length (threads s) + 2
       /\ sys_handlers x = [HReplied "worker started"; HReplied "worker started"]).
Proof.
  split.
  - intros s. unfold start_worker, start_check, start_commit.
    destruct (worker_active s) eqn:Ha; simpl.
    + rewrite Ha. simpl. split; [reflexivity | lia].
    + split; [reflexivity|]. rewrite length_app. simpl. lia.
  - intros s Ha. simpl. unfold handler_step. simpl.
    unfold start_check. rewrite Ha. simpl.
    rewrite !length_app. simpl. split; [lia | reflexivity].
Qed.

Lemma start_check_then_set_witness :
  length (threads (sys_st (run (mkSys module_init [HStart; HStart])
                             [AHandler 0; AHandler 1; AHandler 0; AHandler 1]))) = 2.
Proof.
  rewrite (proj1 (proj2 start_check_then_set module_init eq_refl)). reflexivity.
Defined.

(** C6 as stated fails: loop 0 is asleep at the end of its cycle when
    POST /stop clears the flag; a POST /start before it wakes sets the
    flag again, and loop 0 passes the [while worker_active] test and runs
    another cycle. *)
Lemma stop_then_start_revives_old_loop :
  let x1 := run sys_init tr_stop_start_prefix in
  let x2 := run sys_init tr_stop_start in
  threads (sys_st x1) !! 0 = Some (mkThread "" TSleep)
  /\ worker_active (sys_st x1) = false
  /\ sys_handlers x1 = [HReplied "worker stopping - will finish current cycle"]
  /\ threads (sys_st x2) !! 0 = Some (mkThread "" TBusy)
  /\ length (threads (sys_st x2)) = 2.
Proof. vm_compute. repeat split. Qed.

(** C6 (as amended): stop_worker only clears worker_active; the steps of
    a cycle in flight (the loop body and its sleep) do the same whatever
    the flag; a loop that reaches the [while worker_active] test with the
    flag clear leaves the loop, and a finished loop does nothing more.  So
    the in-flight cycle completes and the loop exits at its next test,
    provided no start_worker has set the flag again by then. *)
Theorem stop_is_cooperative :
  (forall s, fst (stop_worker s) = set_worker_active false s \/ fst (stop_worker s) = s)
  /\ (forall s i e t b, threads s !! i = Some t ->
        tpc_of t = TBusy \/ tpc_of t = TSleep ->
        worker_step i e (set_worker_active b s) = set_worker_active b (worker_step i e s))
  /\ (forall s i e t, threads s !! i = Some t -> tpc_of t = TTop -> worker_active s = false ->
        threads (worker_step i e s) !! i = Some (mkThread (local_url t) TExit))
  /\ (forall s i e t, threads s !! i = Some t -> tpc_of t = TExit -> worker_step i e s = s).
Proof.
  split; [|split; [|split]].
  - exact stop_worker_cases.
  - intros s i e t b Hi Hp. unfold worker_step. simpl. rewrite Hi.
    destruct Hp as [-> | ->]; reflexivity.
  - intros s i e t Hi Hp Ha. rewrite (worker_step_self s i e t Hi), Hp, Ha. reflexivity.
  - intros s i e t Hi Hp. unfold worker_step. rewrite Hi, Hp. reflexivity.
Qed.

Lemma stop_is_cooperative_witness :
  let s := sys_st (run sys_init tr_stop_start_prefix) in
  threads (worker_step 0 env_no_link s) !! 0 = Some (mkThread "" TTop)
  /\ threads (worker_step 0 env_no_link (worker_step 0 env_no_link s)) !! 0
     = Some (mkThread "" TExit).
Proof.
  split; [vm_compute; reflexivity|].
  apply (proj1 (proj2 (proj2 stop_is_cooperative))
           (worker_step 0 env_no_link (sys_st (run sys_init tr_stop_start_prefix)))
           0 env_no_link (mkThread "" TTop));
    vm_compute; reflexivity.
Defined.

(** C8 as stated fails: loop 0 enters a cycle holding the copy "" of
    the marker while last_processed is "post-1" (written by loop 1), and
    that cycle compares the fetched locator with "": the same fetch
    compared with the store's value would have been NoNewItem. *)
Lemma cycle_compares_with_stale_copy :
  let x := run sys_init tr_stop_start in
  threads (sys_st x) !! 0 = Some (mkThread "" TBusy)
  /\ last_processed (sys_st x) = "post-1"
  /\ c_outcome (worker_cycle "" (last_processed (sys_st x)) (env_ok "post-1"))
     = Delivered "post-1"
  /\ c_outcome (worker_cycle "post-1" "post-1" (env_ok "post-1")) = NoNewItem.
Proof. vm_compute. repeat split. Qed.

(** C8 (as amended): worker_process reads last_processed once, when the
    loop starts, into its own copy.  A cycle never reads last_processed:
    its events, outcome and new copy are the same whatever the store
    holds, and it compares the fetched locator with the copy (equal:
    NoNewItem; different: the page is fetched).  It writes last_processed
    at most once, only on the send path, where it sets both the store and
    the copy to the fetched locator; every other path keeps both.  The
    copy equals last_processed at every cycle start in runs where at most
    one worker thread has been started. *)
Theorem marker_read_once_written_once :
  (forall s i e t, threads s !! i = Some t -> tpc_of t = TInit ->
     threads (worker_step i e s) !! i = Some (mkThread (last_processed s) TTop))
  /\ (forall local global global' e,
       c_events (worker_cycle local global e) = c_events (worker_cycle local global' e)
       /\ c_outcome (worker_cycle local global e) = c_outcome (worker_cycle local global' e)
       /\ c_local (worker_cycle local global e) = c_local (worker_cycle local global' e))
  /\ (forall local global e url, env_home e = HomeLink (Some url) -> url <> "" ->
       (url = local -> c_outcome (worker_cycle local global e) = NoNewItem)
       /\ (url <> local -> In (EExtract url) (c_events (worker_cycle local global e))))
  /\ (forall local global e,
       let r := worker_cycle local global e in
       (c_global r = global /\ c_local r = local /\ saves_of (c_events r) = []
        /\ length (filter is_send (c_events r)) = 0)
       \/ (exists url sm, env_home e = HomeLink (Some url)
             /\ c_global r = url /\ c_local r = url /\ saves_of (c_events r) = [url]
             /\ In (ESend email_subject (email_body url sm)) (c_events r)))
  /\ (forall tr i t, length (threads (sys_st (run sys_init tr))) <= 1 ->
        threads (sys_st (run sys_init tr)) !! i = Some t -> tpc_of t = TBusy ->
        local_url t = last_processed (sys_st (run sys_init tr))).
Proof.
  split; [|split; [|split; [|split]]].
  - intros s i e t Hi Hp. rewrite (worker_step_self s i e t Hi), Hp. reflexivity.
  - intros local global global' e. apply (proj1 (cycle_uses_copy local global global' e)).
  - intros local global e url. apply (proj2 (cycle_uses_copy local global global e)).
  - intros local global e.
    destruct (cycle_write_path local global e)
      as [(Hl & Hg & Hs & Hn)|(url & sm & Hh & _ & _ & Hl & Hg & Hs & Hin & _)];
      [left; auto | right; exists url, sm; auto].
  - intros tr i t Hlen Hi Hp. apply (single_loop_synced tr Hlen i t Hi). congruence.
Qed.

Lemma marker_read_once_written_once_witness :
  threads (sys_st (run sys_init tr_one_loop)) !! 0 = Some (mkThread "post-1" TBusy)
  /\ local_url (mkThread "post-1" TBusy) = last_processed (sys_st (run sys_init tr_one_loop))
  /\ c_outcome (worker_cycle "post-1" "" (env_ok "post-1")) = NoNewItem.
Proof.
  split; [vm_compute; reflexivity|]. split.
  - apply (proj2 (proj2 (proj2 (proj2 marker_read_once_written_once))) tr_one_loop 0);
      vm_compute; first [lia | reflexivity].
  - apply (proj1 (proj1 (proj2 (proj2 marker_read_once_written_once))
                    "post-1" "" (env_ok "post-1") "post-1" eq_refl ltac:(discriminate)));
      reflexivity.
Defined.

Lemma cycle_never_throws_witness :
  exists l, threads (worker_step 0 (mkEnv (HomeLink None) PageNoBody ModelRaise SendRaise)
                       (sys_st (run sys_init (firstn 3 tr_stop_start)))) !! 0
            = Some (mkThread l TSleep).
Proof.
  apply (proj1 (proj2 cycle_never_throws) (sys_st (run sys_init (firstn 3 tr_stop_start)))
           0 (mkEnv (HomeLink None) PageNoBody ModelRaise SendRaise) (mkThread "" TBusy));
    vm_compute; reflexivity.
Defined.

(** * Further properties of app.py *)

(** [HtmlBody="<p>" + body.replace("\n", "</p><p>") + "</p>"] in
    send_simple_message. *)
Fixpoint replace_newlines (s : string) : string :=
  match s with
  | EmptyString => EmptyString
  | String c s' =>
    if Ascii.eqb c (ascii_of_nat 10) then ("</p><p>" ++ replace_newlines s')%string
    else String c (replace_newlines s')
  end.

Definition html_body (body : string) : string :=
  ("<p>" ++ replace_newlines body ++ "</p>")%string.



Lemma string_app_assoc (a b c : string) :
  (a ++ (b ++ c))%string = ((a ++ b) ++ c)%string.
Proof. induction a as [|x a IH]; simpl; [reflexivity | rewrite IH; reflexivity]. Qed.

Lemma replace_newlines_app (a b : string) :
  replace_newlines (a ++ b) = (replace_newlines a ++ replace_newlines b)%string.
Proof.
  induction a as [|c a IH]; simpl; [reflexivity|].
  rewrite IH. destruct (Ascii.eqb c (ascii_of_nat 10)); reflexivity.
Qed.

Lemma replace_newlines_id (s : string) :
  forallb (fun c => negb (Ascii.eqb c (ascii_of_nat 10))) (list_ascii_of_string s) = true ->
  replace_newlines s = s.
Proof.
  induction s as [|c s IH]; simpl; [reflexivity|].
  intros H. apply andb_true_iff in H as [Hc Hs]. apply negb_true_iff in Hc.
  rewrite Hc, IH by exact Hs. reflexivity.
Qed.

(** What a cycle saves, sends and does to the two copies of the marker. *)
Lemma cycle_saves local global e :
  let r := worker_cycle local global e in
  (saves_of (c_events r) = [] /\ c_local r = local /\ c_global r = global
   /\ length (filter is_send (c_events r)) = 0)
  \/ (exists url, saves_of (c_events r) = [url] /\ c_local r = url /\ c_global r = url
        /\ url <> "" /\ url <> local /\ length (filter is_send (c_events r)) = 1).
Proof.
  destruct e as [[| |[href|]] [| | |ps] [reason|txt|] [res|]]; simpl;
    split_cycle; clean_eqb; try (left; auto; fail);
    right; eexists; repeat split; eauto.
Qed.



Lemma concat_newline_empty (ps : list string) :
  String.concat newline ps = "" <-> ps = [] \/ ps = [""].
Proof.
  split.
  - destruct ps as [|p [|q ps]]; simpl; auto.
    + intros ->. auto.
    + intros H. exfalso. destruct p; discriminate.
  - intros [-> | ->]; reflexivity.
Qed.

Lemma no_send_count (l : list event) :
  forallb (fun ev => negb (is_send ev)) l = true -> length (filter is_send l) = 0.
Proof.
  induction l as [|ev l IH]; simpl; [reflexivity|].
  intros H. destruct ev; simpl in *; try discriminate; apply IH; exact H.
Qed.

(** For a new, non-empty locator whose page has a [div.body], the cycle
    stops at the extraction test exactly when the body has no paragraph
    or one empty paragraph (the joined text is ""); then Gemini is not
    called and the marker is kept. *)
Theorem empty_post_text_stops_cycle local global url ps m sd :
  url <> "" -> url <> local ->
  let r := worker_cycle local global (mkEnv (HomeLink (Some url)) (PageBody ps) m sd) in
  (c_outcome r = ExtractFailed <-> ps = [] \/ ps = [""])
  /\ ((ps = [] \/ ps = [""]) ->
      c_events r = [EFetchHome; EExtract url; ELog Warning; ESleep]
      /\ c_global r = global /\ c_local r = local).
Proof.
  intros Hu Hl. unfold worker_cycle; simpl.
  rewrite (proj2 (String.eqb_neq url "") Hu), (proj2 (String.eqb_neq url local) Hl). simpl.
  destruct (String.eqb_spec (String.concat newline ps) "") as [He|He].
  - pose proof (proj1 (concat_newline_empty ps) He). simpl. tauto.
  - split.
    + split.
      * destruct m as [reason|t|]; simpl; try discriminate.
        destruct (String.eqb (strip t) ""); simpl; try discriminate.
        destruct sd; simpl; discriminate.
      * intros Hp. apply concat_newline_empty in Hp. contradiction.
    + intros Hp. apply concat_newline_empty in Hp. contradiction.
Qed.

Lemma empty_post_text_stops_cycle_witness :
  c_outcome (worker_cycle "post-1" "post-1"
               (mkEnv (HomeLink (Some "post-2")) (PageBody [""]) (ModelText "sum") (SendOk "id")))
  = ExtractFailed.
Proof.
  apply (proj1 (empty_post_text_stops_cycle "post-1" "post-1" "post-2" [""] (ModelText "sum")
                  (SendOk "id") ltac:(discriminate) ltac:(discriminate))).
  right. reflexivity.
Defined.



(** In every cycle the code calls send_simple_message exactly when it
    saves the fetched locator, whether or not the send succeeds: at most
    one of each, and a saved locator is non-empty and becomes
    last_processed. *)
Theorem send_iff_save local global e :
  let r := worker_cycle local global e in
  length (filter is_send (c_events r)) = length (saves_of (c_events r))
  /\ length (saves_of (c_events r)) <= 1
  /\ (forall url, In url (saves_of (c_events r)) -> c_global r = url /\ url <> "").
Proof.
  destruct (cycle_saves local global e)
    as [(Hs & _ & _ & Hn)|(url & Hs & _ & Hg & Hu & _ & Hn)]; simpl in *;
    rewrite Hs, Hn; simpl.
  - split; [reflexivity|]. split; [lia|]. intros u [].
  - split; [reflexivity|]. split; [lia|]. intros u [<-|[]]; auto.
Qed.


(** A DeliveryFailed cycle has taken the send path: it moved the loop's
    copy of the marker. *)
Lemma delivery_failed_moves_copy local global e :
  c_outcome (worker_cycle local global e) = DeliveryFailed ->
  c_local (worker_cycle local global e) <> local.
Proof.
  destruct e as [[| |[href|]] [| | |ps] [reason|txt|] [res|]]; simpl;
    split_cycle; clean_eqb; intros Hd; try discriminate; auto.
Qed.

(** A cycle that never calls send_simple_message leaves the loop's copy
    of the marker as it was, so the next cycle that fetches the same new
    locator fetches its page again: failures before the send are retried
    from the start.  A cycle whose send fails is not retried: the next
    fetch of the same locator is NoNewItem. *)
Theorem failed_cycle_retried :
  (forall local global e e2 url,
     let r := worker_cycle local global e in
     forallb (fun ev => negb (is_send ev)) (c_events r) = true ->
     env_home e2 = HomeLink (Some url) -> url <> "" -> url <> local ->
     In (EExtract url) (c_events (worker_cycle (c_local r) (c_global r) e2)))
  /\ (forall local global e e2 url,
     let r := worker_cycle local global e in
     c_outcome r = DeliveryFailed ->
     env_home e = HomeLink (Some url) -> env_home e2 = HomeLink (Some url) ->
     c_outcome (worker_cycle (c_local r) (c_global r) e2) = NoNewItem).
Proof.
  split.
  - intros local global e e2 url r Hn Hh Hu Hl. apply no_send_count in Hn.
    destruct (cycle_saves local global e)
      as [(_ & Hlc & _ & _)|(u & _ & _ & _ & _ & _ & Hc)]; [|fold r in Hc; lia].
    fold r in Hlc. rewrite Hlc.
    apply (proj2 (proj2 (cycle_uses_copy local (c_global r) (c_global r) e2) url Hh Hu) Hl).
  - intros local global e e2 url r Hd Hh Hh2.
    destruct (cycle_write_path local global e)
      as [(Hlc & _)|(u & sm & Hh' & Hu & _ & Hlc & _)].
    + exact (False_ind _ (delivery_failed_moves_copy local global e Hd Hlc)).
    + rewrite Hh in Hh'. injection Hh' as <-. fold r in Hlc. rewrite Hlc.
      apply (proj1 (proj2 (cycle_uses_copy url (c_global r) (c_global r) e2) url Hh2 Hu)).
      reflexivity.
Qed.

Lemma failed_cycle_retried_witness :
  In (EExtract "post-2")
     (c_events (worker_cycle (c_local (worker_cycle "post-1" "post-1" env_no_link))
                  (c_global (worker_cycle "post-1" "post-1" env_no_link)) (env_ok "post-2")))
  /\ c_outcome (worker_cycle (c_local (worker_cycle "post-1" "post-1" env_send_fails))
                  (c_global (worker_cycle "post-1" "post-1" env_send_fails)) (env_ok "post-2"))
     = NoNewItem.
Proof.
  split.
  - apply (proj1 failed_cycle_retried "post-1" "post-1" env_no_link (env_ok "post-2") "post-2");
      [reflexivity | reflexivity | discriminate | discriminate].
  - apply (proj2 failed_cycle_retried "post-1" "post-1" env_send_fails (env_ok "post-2") "post-2");
      reflexivity.
Defined.

(** The HtmlBody of the summary email: a paragraph "Summary of <url>:",
    an empty paragraph (from the double newline), then the summary, every
    newline of url and summary turned into a paragraph break; a url and
    summary without newlines appear verbatim. *)
Theorem email_html_layout :
  (forall url sm,
     html_body (email_body url sm)
     = ("<p>Summary of " ++ replace_newlines url ++ ":</p><p></p><p>"
        ++ replace_newlines sm ++ "</p>")%string)
  /\ (forall url sm,
        forallb (fun c => negb (Ascii.eqb c (ascii_of_nat 10))) (list_ascii_of_string url) = true ->
        forallb (fun c => negb (Ascii.eqb c (ascii_of_nat 10))) (list_ascii_of_string sm) = true ->
        html_body (email_body url sm)
        = ("<p>Summary of " ++ url ++ ":</p><p></p><p>" ++ sm ++ "</p>")%string).
Proof.
  assert (Hgen : forall url sm,
     html_body (email_body url sm)
     = ("<p>Summary of " ++ replace_newlines url ++ ":</p><p></p><p>"
        ++ replace_newlines sm ++ "</p>")%string).
  { intros url sm. unfold html_body, email_body.
    rewrite !replace_newlines_app. simpl.
    repeat rewrite <- string_app_assoc. reflexivity. }
  split; [exact Hgen|].
  intros url sm Hu Hs. rewrite Hgen, !replace_newlines_id by assumption. reflexivity.
Qed.

Lemma email_html_layout_witness :
  html_body (email_body "post-1" "sum") = "<p>Summary of post-1:</p><p></p><p>sum</p>".
Proof.
  rewrite (proj2 email_html_layout "post-1" "sum") by reflexivity. reflexivity.
Defined.

Lemma worker_step_flags i e s :
  worker_active (worker_step i e s) = worker_active s
  /\ ping_active (worker_step i e s) = ping_active s
  /\ (last_processed (worker_step i e s) = last_processed s
      \/ last_processed (worker_step i e s) <> "").
Proof.
  unfold worker_step. destruct (threads s !! i) as [t|]; [|auto].
  destruct (tpc_of t); simpl; auto.
  destruct (cycle_saves (local_url t) (last_processed s) e)
    as [(_ & _ & Hg & _)|(url & _ & _ & Hg & Hu & _)]; rewrite Hg; auto.
Qed.

Lemma handler_step_frame h x :
  last_processed (sys_st (handler_step h x)) = last_processed (sys_st x)
  /\ ping_active (sys_st (handler_step h x)) = ping_active (sys_st x).
Proof.
  destruct x as [s hs]. unfold handler_step; simpl.
  destruct (hs !! h) as [[|b| |r]|]; simpl; auto.
  - destruct (start_commit_cases b s) as [Hc|Hc];
      destruct (start_commit b s) as [s' r]; simpl in *; subst; auto.
  - destruct (stop_worker_cases s) as [Hc|Hc];
      destruct (stop_worker s) as [s' r]; simpl in *; subst; auto.
Qed.

Lemma step_marker x a :
  last_processed (sys_st (step_sys x a)) = last_processed (sys_st x)
  \/ last_processed (sys_st (step_sys x a)) <> "".
Proof.
  destruct a as [| | | |h|i e]; simpl; auto.
  - left. apply handler_step_frame.
  - apply worker_step_flags.
Qed.

(** Once last_processed holds a locator it never becomes empty again,
    whatever runs afterwards (workers, start, stop, startup, shutdown),
    so GET / reports it verbatim and never "None" again. *)
Theorem marker_stays_set x tr :
  last_processed (sys_st x) <> "" ->
  last_processed (sys_st (run x tr)) <> ""
  /\ st_last_processed (index (sys_st (run x tr))) = last_processed (sys_st (run x tr)).
Proof.
  assert (Hrun : last_processed (sys_st x) <> "" -> last_processed (sys_st (run x tr)) <> "").
  { revert x. induction tr as [|a tr IH]; intros x Hx; simpl; [exact Hx|].
    apply IH. destruct (step_marker x a) as [-> | H]; assumption. }
  intros Hx. specialize (Hrun Hx). split; [exact Hrun|].
  simpl. destruct (String.eqb_spec (last_processed (sys_st (run x tr))) ""); [contradiction | reflexivity].
Qed.

Lemma marker_stays_set_witness :
  st_last_processed (index (sys_st (run (run sys_init tr_stop_start) tr_race))) = "post-1".
Proof.
  rewrite (proj2 (marker_stays_set (run sys_init tr_stop_start) tr_race ltac:(vm_compute; discriminate))).
  vm_compute. reflexivity.
Defined.

(** Only on_shutdown clears ping_active: the worker loops and the start
    and stop handlers never touch it, so after startup GET / reports
    ping_active true until shutdown. *)
Theorem ping_stays_active x tr :
  ~ In AShutdown tr -> ping_active (sys_st x) = true ->
  ping_active (sys_st (run x tr)) = true /\ st_ping_active (index (sys_st (run x tr))) = true.
Proof.
  assert (H : ~ In AShutdown tr -> ping_active (sys_st x) = true ->
              ping_active (sys_st (run x tr)) = true).
  { revert x. induction tr as [|a tr IH]; intros x Hn Hp; simpl; [exact Hp|].
    apply IH; [intros Hi; apply Hn; right; exact Hi|].
    destruct a as [| | | |h|i e]; simpl; auto.
    - exfalso. apply Hn. left. reflexivity.
    - rewrite (proj2 (handler_step_frame h x)). exact Hp.
    - rewrite (proj1 (proj2 (worker_step_flags i e (sys_st x)))). exact Hp. }
  intros Hn Hp. split; apply H; assumption.
Qed.

Lemma ping_stays_active_witness :
  st_ping_active (index (sys_st (run sys_init (tr_stop_start ++ tr_race)))) = true.
Proof.
  change (run sys_init (tr_stop_start ++ tr_race))
    with (run (step_sys sys_init AStartup) (tail (tr_stop_start ++ tr_race))).
  apply (ping_stays_active (step_sys sys_init AStartup) (tail (tr_stop_start ++ tr_race)));
    [vm_compute; intuition discriminate | reflexivity].
Defined.

Definition is_worker_action (a : action) : bool :=
  match a with AWorker _ _ => true | _ => false end.

Lemma worker_step_no_new_busy i e s j t :
  worker_active s = false ->
  threads (worker_step i e s) !! j = Some t -> tpc_of t = TBusy ->
  exists t0, threads s !! j = Some t0 /\ tpc_of t0 = TBusy.
Proof.
  intros Ha Hj Hb. unfold worker_step in Hj.
  destruct (threads s !! i) as [ti|] eqn:Hi; [|eauto].
  destruct (tpc_of ti) eqn:Hp; simpl in Hj; try (rewrite Ha in Hj); eauto;
    apply list_lookup_insert_Some in Hj as [(<- & <- & _)|(_ & Hj)];
    simpl in Hb; try discriminate; eauto.
Qed.

Lemma worker_run_flag y tr :
  forallb is_worker_action tr = true ->
  worker_active (sys_st (run y tr)) = worker_active (sys_st y).
Proof.
  revert y. induction tr as [|a tr IH]; intros y Htr; simpl in *; [reflexivity|].
  apply andb_true_iff in Htr as [Ha Htr].
  destruct a as [| | | |h|i e]; try discriminate.
  rewrite (IH _ Htr). apply (worker_step_flags i e (sys_st y)).
Qed.

(** From a state with the flag clear, worker steps alone never put a
    thread into its loop body. *)
Lemma worker_run_no_new_busy y tr :
  worker_active (sys_st y) = false -> forallb is_worker_action tr = true ->
  forall j t, threads (sys_st (run y tr)) !! j = Some t -> tpc_of t = TBusy ->
  exists t0, threads (sys_st y) !! j = Some t0 /\ tpc_of t0 = TBusy.
Proof.
  revert y. induction tr as [|a tr IH]; intros y Hy Htr j t Hj Hb; simpl in *; [eauto|].
  apply andb_true_iff in Htr as [Ha Htr].
  destruct a as [| | | |h|i e]; try discriminate. simpl in *.
  destruct (IH (mkSys (worker_step i e (sys_st y)) (sys_handlers y))) with (j := j) (t := t)
    as (t1 & Hj1 & Hb1); simpl; auto.
  - rewrite (proj1 (worker_step_flags i e (sys_st y))). exact Hy.
  - eapply worker_step_no_new_busy; eauto.
Qed.

(** After on_shutdown, as long as no request or startup comes in, no
    worker loop starts a new cycle: a loop can be inside its loop body
    afterwards only if it already was at shutdown, and a loop that has
    left its loop body (finished the cycle in flight) never enters it
    again. *)
Theorem shutdown_starts_no_cycle x tr1 tr2 :
  forallb is_worker_action tr1 = true -> forallb is_worker_action tr2 = true ->
  let y := run x (AShutdown :: tr1) in
  (forall j t, threads (sys_st y) !! j = Some t -> tpc_of t = TBusy ->
     exists t0, threads (sys_st x) !! j = Some t0 /\ tpc_of t0 = TBusy)
  /\ (forall j t t', threads (sys_st y) !! j = Some t -> tpc_of t <> TBusy ->
        threads (sys_st (run y tr2)) !! j = Some t' -> tpc_of t' <> TBusy).
Proof.
  intros H1 H2 y.
  assert (Hy : worker_active (sys_st y) = false).
  { subst y. simpl. rewrite (worker_run_flag _ _ H1). reflexivity. }
  split.
  - intros j t Hj Hb.
    exact (worker_run_no_new_busy (mkSys (on_shutdown (sys_st x)) (sys_handlers x)) tr1
             eq_refl H1 j t Hj Hb).
  - intros j t t' Hj Hn Hj' Hb'.
    destruct (worker_run_no_new_busy y tr2 Hy H2 j t' Hj' Hb') as (t0 & Hj0 & Hb0).
    rewrite Hj in Hj0. injection Hj0 as <-. contradiction.
Qed.

Lemma shutdown_starts_no_cycle_witness :
  tpc_of (mkThread "" TExit) <> TBusy.
Proof.
  apply (proj2 (shutdown_starts_no_cycle (run sys_init tr_stop_start)
                  [AWorker 0 env_no_link; AWorker 0 env_no_link] [AWorker 0 env_no_link]
                  eq_refl eq_refl) 0 (mkThread "" TTop) (mkThread "" TExit));
    [vm_compute; reflexivity | discriminate | vm_compute; reflexivity].
Defined.
